(** * A shallow embedding of the DOMQL linter (src/index.js)

    The Babel syntax tree is modelled by one inductive type [node] whose
    constructors are the node types the linter inspects; every other node
    type is an [OtherNode] carrying its type name and children in
    visitor-key order.  The linter instance is the record [linter] holding
    the two arrays [errors] and [warnings]; every method that pushes is a
    function from the old instance to the new one. *)

From Stdlib Require Import Ascii String List Bool Arith Lia.
Import ListNotations.
Set Warnings "-register-all".
Open Scope string_scope.
Open Scope list_scope.

(** ** Source positions and Babel nodes *)

(** [loc.start] of a Babel node: line is 1-based, column is 0-based. *)
Record position := mkPosition { line : nat; column : nat }.

Inductive node : Type :=
| ObjectExpression (properties : list node) (loc : option position)
| ObjectProperty (key : node) (computed : bool) (value : node) (loc : option position)
| ObjectMethod (key : node) (computed : bool) (body : list node) (loc : option position)
| SpreadElement (argument : node) (loc : option position)
| Identifier (name : string) (loc : option position)
| StringLiteral (value : string) (loc : option position)
| NumericLiteral (value : nat) (loc : option position)
| OtherNode (type_ : string) (children : list node) (loc : option position).

(** [node.type] *)
Definition node_type (n : node) : string :=
  match n with
  | ObjectExpression _ _ => "ObjectExpression"
  | ObjectProperty _ _ _ _ => "ObjectProperty"
  | ObjectMethod _ _ _ _ => "ObjectMethod"
  | SpreadElement _ _ => "SpreadElement"
  | Identifier _ _ => "Identifier"
  | StringLiteral _ _ => "StringLiteral"
  | NumericLiteral _ _ => "NumericLiteral"
  | OtherNode t _ _ => t
  end.

(** [node.loc?.start] *)
Definition node_loc (n : node) : option position :=
  match n with
  | ObjectExpression _ l | ObjectProperty _ _ _ l | ObjectMethod _ _ _ l
  | SpreadElement _ l | Identifier _ l | StringLiteral _ l
  | NumericLiteral _ l | OtherNode _ _ l => l
  end.

(** [prop.key]: only object properties and methods have one. *)
Definition key_of (prop : node) : option node :=
  match prop with
  | ObjectProperty k _ _ _ | ObjectMethod k _ _ _ => Some k
  | _ => None
  end.

(** [prop.value]: only object properties have one. *)
Definition value_of (prop : node) : option node :=
  match prop with
  | ObjectProperty _ _ v _ => Some v
  | _ => None
  end.

(** [node.name]: only identifiers have one ([StringLiteral] has [value]). *)
Definition name_of (n : node) : option string :=
  match n with
  | Identifier s _ => Some s
  | _ => None
  end.

(** [node.properties] of an object expression. *)
Definition properties_of (n : node) : list node :=
  match n with
  | ObjectExpression ps _ => ps
  | _ => []
  end.

(** ** Strings and the classification tables *)

(** [String.prototype.startsWith] *)
Fixpoint startsWith (s pre : string) : bool :=
  match pre, s with
  | EmptyString, _ => true
  | String c pre', String d s' => Ascii.eqb c d && startsWith s' pre'
  | String _ _, EmptyString => false
  end.

(** [Set.prototype.has] / [Array.prototype.includes] on strings *)
Definition has (set : list string) (x : string) : bool :=
  existsb (String.eqb x) set.

Definition getStyleProperties : list string :=
  [ "width"; "height"; "margin"; "padding"; "border"; "background"; "color";
    "fontSize"; "fontFamily"; "fontWeight"; "textAlign"; "display"; "position";
    "top"; "left"; "right"; "bottom"; "zIndex"; "opacity"; "visibility";
    "overflow"; "cursor"; "transition"; "transform"; "boxSizing"; "flex";
    "flexDirection"; "justifyContent"; "alignItems"; "gap"; "grid";
    "gridTemplateColumns"; "gridTemplateRows"; "aspectRatio"; "backdropFilter";
    "borderRadius"; "boxShadow"; "textDecoration"; "lineHeight"; "letterSpacing";
    "whiteSpace"; "wordWrap"; "textOverflow"; "verticalAlign"; "float";
    "clear"; "minWidth"; "maxWidth"; "minHeight"; "maxHeight"; "flexBasis";
    "flexGrow"; "flexShrink"; "order"; "alignSelf"; "justifySelf" ].

Definition getHTMLAttributes : list string :=
  [ "id"; "class"; "className"; "data-*"; "aria-*"; "role"; "tabindex";
    "disabled"; "readonly"; "required"; "checked"; "selected"; "value";
    "placeholder"; "title"; "alt"; "src"; "href"; "target"; "rel";
    "type"; "name"; "form"; "for"; "maxlength"; "minlength"; "pattern";
    "autocomplete"; "autofocus"; "multiple"; "size"; "rows"; "cols" ].

Definition getEventHandlers : list string :=
  [ "onClick"; "onMouseEnter"; "onMouseLeave"; "onMouseOver"; "onMouseOut";
    "onMouseDown"; "onMouseUp"; "onKeyDown"; "onKeyUp"; "onKeyPress";
    "onFocus"; "onBlur"; "onChange"; "onInput"; "onSubmit"; "onLoad";
    "onError"; "onResize"; "onScroll"; "onTouchStart"; "onTouchEnd";
    "onTouchMove"; "onTouchCancel" ].

(** The literal exception list of [validateOnObject]. *)
Definition onExceptions : list string :=
  [ "mouseenter"; "mouseleave"; "click"; "keydown"; "keyup" ].

(** ** Diagnostics and the linter instance *)

Inductive severity := SevError | SevWarning.

Record diagnostic := mkDiagnostic {
  file : string;
  dline : nat;
  dcolumn : nat;
  message : string;
  dseverity : severity;
  suggestion : option string
}.

Record linter := mkLinter { errors : list diagnostic; warnings : list diagnostic }.

(** [this.errors = []; this.warnings = []] in the constructor. *)
Definition new_linter : linter := mkLinter [] [].

(** [this.warnings.push(d)] *)
Definition push_warning (s : linter) (d : diagnostic) : linter :=
  mkLinter (errors s) (warnings s ++ [d]).

(** [this.errors.push(d)] *)
Definition push_error (s : linter) (d : diagnostic) : linter :=
  mkLinter (errors s ++ [d]) (warnings s).

(** JavaScript [a || b] where [a] is a possibly undefined number:
    [undefined] and [0] are falsy. *)
Definition js_or (a : option nat) (b : nat) : nat :=
  match a with
  | Some (S _ as x) => x
  | _ => b
  end.

Definition start_line (l : option position) : option nat := option_map line l.
Definition start_column (l : option position) : option nat := option_map column l.

(** [prop.loc?.start?.line || location?.start?.line || 1] *)
Definition diag_line (prop : node) (location : option position) : nat :=
  js_or (start_line (node_loc prop)) (js_or (start_line location) 1).

(** [prop.loc?.start?.column || location?.start?.column || 1] *)
Definition diag_column (prop : node) (location : option position) : nat :=
  js_or (start_column (node_loc prop)) (js_or (start_column location) 1).

Definition warning_at (filePath : string) (prop : node) (location : option position)
    (msg sugg : string) : diagnostic :=
  mkDiagnostic filePath (diag_line prop location) (diag_column prop location)
    msg SevWarning (Some sugg).


Definition style_message (propName : string) : string :=
  ("Style property '" ++ propName ++ "' should be in 'style' object, not 'props'")%string.
Definition style_suggestion (propName : string) : string :=
  ("Move '" ++ propName ++ "' to the 'style' object")%string.
Definition event_message (propName : string) : string :=
  ("Event handler '" ++ propName ++ "' should be in 'on' object, not 'props'")%string.
Definition event_suggestion (propName : string) : string :=
  ("Move '" ++ propName ++ "' to the 'on' object")%string.
Definition attr_message (propName : string) : string :=
  ("HTML attribute '" ++ propName ++ "' should be in 'props' object, not 'style'")%string.
Definition attr_suggestion (propName : string) : string :=
  ("Move '" ++ propName ++ "' to the 'props' object")%string.
Definition on_message (propName : string) : string :=
  ("'" ++ propName ++ "' doesn't look like an event handler and should probably be in 'props'")%string.
Definition on_suggestion (propName : string) : string :=
  ("Consider moving '" ++ propName ++ "' to the 'props' object")%string.
Definition parse_error_message (msg : string) : string := ("Parse error: " ++ msg)%string.


(** ** The structural validator *)

(** One iteration of the [forEach] of [validatePropsObject]. *)
Definition validatePropsField (filePath : string) (location : option position)
    (styleProps eventHandlers : list string) (s : linter) (prop : node) : linter :=
  match key_of prop with
  | Some (Identifier propName _) =>           (* prop.key.type === 'Identifier' *)
      let s := if has styleProps propName
               then push_warning s (warning_at filePath prop location
                      (style_message propName) (style_suggestion propName))
               else s in
      let s := if has eventHandlers propName
               then push_warning s (warning_at filePath prop location
                      (event_message propName) (event_suggestion propName))
               else s in
      (* the data-/aria- branches of the source have empty bodies *)
      s
  | _ => s
  end.

Definition validatePropsObject (s : linter) (propsNode : node) (filePath : string)
    (location : option position) (styleProps htmlAttrs eventHandlers : list string)
    : linter :=
  fold_left (validatePropsField filePath location styleProps eventHandlers)
    (properties_of propsNode) s.

Definition validateStyleField (filePath : string) (location : option position)
    (htmlAttrs : list string) (s : linter) (prop : node) : linter :=
  match key_of prop with
  | Some (Identifier propName _) =>
      if has htmlAttrs propName || startsWith propName "data-"
         || startsWith propName "aria-"
      then push_warning s (warning_at filePath prop location
             (attr_message propName) (attr_suggestion propName))
      else s
  | _ => s
  end.

Definition validateStyleObject (s : linter) (styleNode : node) (filePath : string)
    (location : option position) (htmlAttrs : list string) : linter :=
  fold_left (validateStyleField filePath location htmlAttrs)
    (properties_of styleNode) s.

Definition validateOnField (filePath : string) (location : option position)
    (s : linter) (prop : node) : linter :=
  match key_of prop with
  | Some (Identifier propName _) =>
      if negb (startsWith propName "on") && negb (has onExceptions propName)
      then push_warning s (warning_at filePath prop location
             (on_message propName) (on_suggestion propName))
      else s
  | _ => s
  end.

Definition validateOnObject (s : linter) (onNode : node) (filePath : string)
    (location : option position) : linter :=
  fold_left (validateOnField filePath location) (properties_of onNode) s.

(** [prop => prop.key && prop.key.name === k] *)
Definition key_name_is (k : string) (prop : node) : bool :=
  match key_of prop with
  | Some key => match name_of key with
                | Some nm => String.eqb nm k
                | None => false
                end
  | None => false
  end.

(** [x.value && x.value.type === 'ObjectExpression'] for the result [x] of a
    [find] on the properties. *)
Definition object_value (found : option node) : option node :=
  match found with
  | Some prop => match value_of prop with
                 | Some (ObjectExpression _ _ as v) => Some v
                 | _ => None
                 end
  | None => None
  end.

Definition validateComponentStructure (s : linter) (n : node) (filePath : string)
    (location : option position) : linter :=
  let styleProps := getStyleProperties in
  let htmlAttrs := getHTMLAttributes in
  let eventHandlers := getEventHandlers in
  let s := match object_value (find (key_name_is "props") (properties_of n)) with
           | Some v => validatePropsObject s v filePath location styleProps htmlAttrs eventHandlers
           | None => s
           end in
  let s := match object_value (find (key_name_is "style") (properties_of n)) with
           | Some v => validateStyleObject s v filePath location htmlAttrs
           | None => s
           end in
  match object_value (find (key_name_is "on") (properties_of n)) with
  | Some v => validateOnObject s v filePath location
  | None => s
  end.

(** ** Component detection and the walker *)

Definition isDOMQLComponent (n : node) : bool :=
  let hasExtend := existsb (key_name_is "extend") (properties_of n) in
  let hasProps := existsb (key_name_is "props") (properties_of n) in
  let hasStyle := existsb (key_name_is "style") (properties_of n) in
  let hasOn := existsb (key_name_is "on") (properties_of n) in
  hasExtend || hasProps || hasStyle || hasOn.

Definition checkObjectExpression (s : linter) (n : node) (filePath : string) : linter :=
  let location := node_loc n in
  if isDOMQLComponent n then validateComponentStructure s n filePath location else s.

(** The [ObjectExpression] nodes that [@babel/traverse] enters, in the order
    it enters them: pre-order, children in visitor-key order. *)
Fixpoint object_expressions (n : node) : list node :=
  let fix all (l : list node) : list node :=
    match l with
    | [] => []
    | x :: xs => object_expressions x ++ all xs
    end in
  match n with
  | ObjectExpression ps _ => n :: all ps
  | ObjectProperty k _ v _ => object_expressions k ++ object_expressions v
  | ObjectMethod k _ body _ => object_expressions k ++ all body
  | SpreadElement a _ => object_expressions a
  | OtherNode _ cs _ => all cs
  | Identifier _ _ | StringLiteral _ _ | NumericLiteral _ _ => []
  end.

Definition parse_error (filePath msg : string) : diagnostic :=
  mkDiagnostic filePath 1 1 (parse_error_message msg) SevError None.

Section Driver.

(** [fs.readFileSync(filePath, 'utf8')]: the content or the thrown error's
    message. *)
Variable readFileSync : string -> string + string.
(** [@babel/parser]'s [parse]: the syntax tree or the thrown error's message. *)
Variable parse : string -> string + node.

Definition lintFile (s : linter) (filePath : string) : linter :=
  match readFileSync filePath with
  | inl msg => push_error s (parse_error filePath msg)
  | inr content =>
      match parse content with
      | inl msg => push_error s (parse_error filePath msg)
      | inr ast =>
          fold_left (fun s n => checkObjectExpression s n filePath)
            (object_expressions ast) s
      end
  end.

(** [lint()] after the glob collaborator returned [files]: the instance
    after the loop and the returned flag [this.errors.length === 0]. *)
Definition lint (s : linter) (files : list string) : linter * bool :=
  let s := fold_left lintFile files s in
  (s, Nat.eqb (length (errors s)) 0).

End Driver.

(** ** What each step pushes, as a list *)

Definition add_warnings (s : linter) (ds : list diagnostic) : linter :=
  mkLinter (errors s) (warnings s ++ ds).

(** The instance [s] followed by everything [d] holds, array by array. *)
Definition append_state (s d : linter) : linter :=
  mkLinter (errors s ++ errors d) (warnings s ++ warnings d).

Definition props_field_warnings (filePath : string) (location : option position)
    (prop : node) : list diagnostic :=
  match key_of prop with
  | Some (Identifier propName _) =>
      (if has getStyleProperties propName
       then [warning_at filePath prop location (style_message propName) (style_suggestion propName)]
       else [])
      ++ (if has getEventHandlers propName
          then [warning_at filePath prop location (event_message propName) (event_suggestion propName)]
          else [])
  | _ => []
  end.

Definition style_field_warnings (filePath : string) (location : option position)
    (prop : node) : list diagnostic :=
  match key_of prop with
  | Some (Identifier propName _) =>
      if has getHTMLAttributes propName || startsWith propName "data-"
         || startsWith propName "aria-"
      then [warning_at filePath prop location (attr_message propName) (attr_suggestion propName)]
      else []
  | _ => []
  end.

Definition on_field_warnings (filePath : string) (location : option position)
    (prop : node) : list diagnostic :=
  match key_of prop with
  | Some (Identifier propName _) =>
      if negb (startsWith propName "on") && negb (has onExceptions propName)
      then [warning_at filePath prop location (on_message propName) (on_suggestion propName)]
      else []
  | _ => []
  end.

(** The warnings of [validateComponentStructure], sub-object by sub-object. *)
Definition props_part (filePath : string) (n : node) : list diagnostic :=
  match object_value (find (key_name_is "props") (properties_of n)) with
  | Some v => flat_map (props_field_warnings filePath (node_loc n)) (properties_of v)
  | None => []
  end.

Definition style_part (filePath : string) (n : node) : list diagnostic :=
  match object_value (find (key_name_is "style") (properties_of n)) with
  | Some v => flat_map (style_field_warnings filePath (node_loc n)) (properties_of v)
  | None => []
  end.

Definition on_part (filePath : string) (n : node) : list diagnostic :=
  match object_value (find (key_name_is "on") (properties_of n)) with
  | Some v => flat_map (on_field_warnings filePath (node_loc n)) (properties_of v)
  | None => []
  end.

Definition component_warnings (filePath : string) (n : node) : list diagnostic :=
  if isDOMQLComponent n
  then props_part filePath n ++ style_part filePath n ++ on_part filePath n
  else [].

(** The warnings a parsed file contributes: object literals in traversal
    order, each with its props, style and on parts. *)
Definition ast_warnings (filePath : string) (ast : node) : list diagnostic :=
  flat_map (component_warnings filePath) (object_expressions ast).

(** The diagnostics in the order [reportResults] prints them: all errors,
    then all warnings. *)
Definition reported (s : linter) : list diagnostic := errors s ++ warnings s.

(** ** Concrete inputs *)

Definition at_ (l c : nat) : option position := Some (mkPosition l c).
Definition prop_at (k : string) (v : node) (l c : nat) : node :=
  ObjectProperty (Identifier k (at_ l c)) false v (at_ l c).
Definition str (s : string) : node := StringLiteral s None.

(** The end-to-end example of the spec:
    [{ props: { width, onClick, id }, style: { id }, on: { id, click } }]. *)
Definition example_component : node :=
  ObjectExpression
    [ prop_at "props" (ObjectExpression
         [ prop_at "width" (str "100px") 2 4; prop_at "onClick" (Identifier "fn" None) 3 4;
           prop_at "id" (str "x") 4 4 ] (at_ 1 9)) 1 2;
      prop_at "style" (ObjectExpression [ prop_at "id" (str "y") 6 4 ] (at_ 5 9)) 5 2;
      prop_at "on" (ObjectExpression
         [ prop_at "id" (str "z") 8 4; prop_at "click" (Identifier "fn" None) 9 4 ] (at_ 7 6)) 7 2 ]
    (at_ 1 0).

Example example_component_messages :
  map message (warnings (validateComponentStructure new_linter example_component "a.js"
                           (node_loc example_component)))
  = [style_message "width"; event_message "onClick"; attr_message "id"; on_message "id"].
Proof. vm_compute. reflexivity. Qed.

Example example_component_columns :
  map dcolumn (warnings (validateComponentStructure new_linter example_component "a.js"
                           (node_loc example_component)))
  = [4; 4; 4; 4].
Proof. vm_compute. reflexivity. Qed.

(** ** Characterisation lemmas *)

Lemma add_warnings_app (s : linter) (ds1 ds2 : list diagnostic) :
  add_warnings (add_warnings s ds1) ds2 = add_warnings s (ds1 ++ ds2).
Proof. destruct s; unfold add_warnings; simpl; rewrite app_assoc; reflexivity. Qed.

Lemma add_warnings_nil (s : linter) : add_warnings s [] = s.
Proof. destruct s; unfold add_warnings; simpl; rewrite app_nil_r; reflexivity. Qed.

Lemma push_warning_add (s : linter) (d : diagnostic) :
  push_warning s d = add_warnings s [d].
Proof. reflexivity. Qed.

(** A [forEach] whose body only pushes warnings pushes their concatenation. *)
Lemma fold_left_add_warnings (step : linter -> node -> linter)
    (g : node -> list diagnostic) :
  (forall s p, step s p = add_warnings s (g p)) ->
  forall l s, fold_left step l s = add_warnings s (flat_map g l).
Proof.
  intros Hstep l; induction l as [|p l IH]; intros s; simpl.
  - symmetry; apply add_warnings_nil.
  - rewrite IH, Hstep, add_warnings_app; reflexivity.
Qed.

Ltac push_cases :=
  repeat match goal with
  | |- context [if ?b then _ else _] => destruct b
  end;
  rewrite ?push_warning_add, ?add_warnings_app, ?add_warnings_nil; reflexivity.

Lemma validatePropsField_spec f loc s p :
  validatePropsField f loc getStyleProperties getEventHandlers s p
  = add_warnings s (props_field_warnings f loc p).
Proof.
  unfold validatePropsField, props_field_warnings.
  destruct (key_of p) as [[]|]; try (symmetry; apply add_warnings_nil).
  push_cases.
Qed.

Lemma validateStyleField_spec f loc s p :
  validateStyleField f loc getHTMLAttributes s p
  = add_warnings s (style_field_warnings f loc p).
Proof.
  unfold validateStyleField, style_field_warnings.
  destruct (key_of p) as [[]|]; try (symmetry; apply add_warnings_nil).
  push_cases.
Qed.

Lemma validateOnField_spec f loc s p :
  validateOnField f loc s p = add_warnings s (on_field_warnings f loc p).
Proof.
  unfold validateOnField, on_field_warnings.
  destruct (key_of p) as [[]|]; try (symmetry; apply add_warnings_nil).
  push_cases.
Qed.

Lemma checkObjectExpression_spec s n f :
  checkObjectExpression s n f = add_warnings s (component_warnings f n).
Proof.
  unfold checkObjectExpression, component_warnings.
  destruct (isDOMQLComponent n); [|symmetry; apply add_warnings_nil].
  unfold validateComponentStructure, props_part, style_part, on_part,
    validatePropsObject, validateStyleObject, validateOnObject.
  cbv zeta.
  destruct (object_value (find (key_name_is "props") (properties_of n)));
  destruct (object_value (find (key_name_is "style") (properties_of n)));
  destruct (object_value (find (key_name_is "on") (properties_of n)));
  rewrite ?(fold_left_add_warnings _ _ (validatePropsField_spec _ _)),
          ?(fold_left_add_warnings _ _ (validateStyleField_spec _ _)),
          ?(fold_left_add_warnings _ _ (validateOnField_spec _ _)),
          ?add_warnings_app, ?add_warnings_nil, ?app_nil_r; reflexivity.
Qed.

Lemma append_state_new (s : linter) : append_state s new_linter = s.
Proof. destruct s; unfold append_state; simpl; rewrite !app_nil_r; reflexivity. Qed.

Lemma append_state_assoc (s d e : linter) :
  append_state (append_state s d) e = append_state s (append_state d e).
Proof. destruct s, d, e; unfold append_state; simpl; rewrite !app_assoc; reflexivity. Qed.

Lemma add_warnings_append (s : linter) (ds : list diagnostic) :
  add_warnings s ds = append_state s (add_warnings new_linter ds).
Proof. destruct s; unfold append_state, add_warnings; simpl; rewrite app_nil_r; reflexivity. Qed.

Lemma push_error_append (s : linter) (d : diagnostic) :
  push_error s d = append_state s (push_error new_linter d).
Proof. destruct s; unfold append_state, push_error; simpl; rewrite app_nil_r; reflexivity. Qed.

Section DriverFacts.

Variable readFileSync : string -> string + string.
Variable parse : string -> string + node.

Lemma lintFile_parsed s f content ast :
  readFileSync f = inr content -> parse content = inr ast ->
  lintFile readFileSync parse s f = add_warnings s (ast_warnings f ast).
Proof.
  intros Hr Hp; unfold lintFile; rewrite Hr, Hp.
  apply (fold_left_add_warnings (fun s n => checkObjectExpression s n f)).
  intros; apply checkObjectExpression_spec.
Qed.

(** What [lintFile] pushes does not depend on the instance it pushes to. *)
Lemma lintFile_append s f :
  lintFile readFileSync parse s f
  = append_state s (lintFile readFileSync parse new_linter f).
Proof.
  destruct (readFileSync f) as [msg|content] eqn:Hr.
  - unfold lintFile; rewrite Hr; apply push_error_append.
  - destruct (parse content) as [msg|ast] eqn:Hp.
    + unfold lintFile; rewrite Hr, Hp; apply push_error_append.
    + rewrite !(lintFile_parsed _ _ _ _ Hr Hp); apply add_warnings_append.
Qed.

Lemma lint_files_append fs : forall s,
  fold_left (lintFile readFileSync parse) fs s
  = append_state s (fold_left (lintFile readFileSync parse) fs new_linter).
Proof.
  induction fs as [|f fs IH]; intros s; simpl.
  - symmetry; apply append_state_new.
  - rewrite IH, (IH (lintFile readFileSync parse new_linter f)), lintFile_append,
      append_state_assoc; reflexivity.
Qed.

(** Files are processed one after the other: the run over [f :: fs] is the
    contribution of [f] followed by the run over [fs] alone. *)
Lemma lint_files_cons f fs :
  fold_left (lintFile readFileSync parse) (f :: fs) new_linter
  = append_state (lintFile readFileSync parse new_linter f)
                 (fold_left (lintFile readFileSync parse) fs new_linter).
Proof. simpl; apply lint_files_append. Qed.

End DriverFacts.

(** ** Facts about the classification tables *)

Lemma has_In (l : list string) (x : string) : has l x = true <-> In x l.
Proof.
  unfold has; rewrite existsb_exists; split.
  - intros [y [Hy Heq]]; apply String.eqb_eq in Heq; subst; exact Hy.
  - intros H; exists x; split; [exact H | apply String.eqb_refl].
Qed.

(** No style name is an event handler, an HTML attribute or a data-/aria- name. *)
Lemma style_names_exclusive :
  forallb (fun n => negb (has getEventHandlers n) && negb (has getHTMLAttributes n)
                    && negb (startsWith n "data-") && negb (startsWith n "aria-"))
          getStyleProperties = true.
Proof. vm_compute; reflexivity. Qed.

(** No HTML attribute is a style name or an event handler. *)
Lemma attr_names_exclusive :
  forallb (fun n => negb (has getStyleProperties n) && negb (has getEventHandlers n))
          getHTMLAttributes = true.
Proof. vm_compute; reflexivity. Qed.

(** No style name or event handler starts with data- or aria-. *)
Lemma style_event_unprefixed :
  forallb (fun n => negb (startsWith n "data-") && negb (startsWith n "aria-"))
          (getStyleProperties ++ getEventHandlers) = true.
Proof. vm_compute; reflexivity. Qed.

Lemma style_name_facts n :
  has getStyleProperties n = true ->
  has getEventHandlers n = false /\ has getHTMLAttributes n = false
  /\ startsWith n "data-" = false /\ startsWith n "aria-" = false.
Proof.
  intros H; apply has_In in H.
  pose proof style_names_exclusive as E; rewrite forallb_forall in E.
  specialize (E n H); rewrite !andb_true_iff, !negb_true_iff in E; tauto.
Qed.

Lemma attr_name_facts n :
  has getHTMLAttributes n = true ->
  has getStyleProperties n = false /\ has getEventHandlers n = false.
Proof.
  intros H; apply has_In in H.
  pose proof attr_names_exclusive as E; rewrite forallb_forall in E.
  specialize (E n H); rewrite !andb_true_iff, !negb_true_iff in E; tauto.
Qed.

Lemma prefixed_name_facts n :
  startsWith n "data-" = true \/ startsWith n "aria-" = true ->
  has getStyleProperties n = false /\ has getEventHandlers n = false.
Proof.
  intros Hp.
  pose proof style_event_unprefixed as E; rewrite forallb_forall in E.
  split; apply not_true_iff_false; intros H; apply has_In in H;
    specialize (E n ltac:(apply in_or_app; tauto));
    rewrite andb_true_iff, !negb_true_iff in E; destruct E, Hp; congruence.
Qed.

Lemma flat_map_insert {A B} (g : A -> list B) (l1 l2 : list A) (x : A) :
  flat_map g (l1 ++ x :: l2) = flat_map g l1 ++ g x ++ flat_map g l2.
Proof. rewrite flat_map_app; reflexivity. Qed.

(** ** C1: style names in props and in style *)

(** C1 (amended): for every name [n] in the style table and every property
    [p] whose key is the identifier [n], inserting [p] anywhere into a
    component's props object adds exactly one warning there, with message
    "Style property 'n' should be in 'style' object, not 'props'" and
    suggestion "Move 'n' to the 'style' object"; inserting [p] into the style
    object adds no warning. A property whose key is a string literal (such
    as ['width']) is not examined: inserting it into the props or the style
    object adds no warning, whatever the string. *)
Theorem style_name_placement :
  (forall f c pl qs1 qs2 n kl p,
     has getStyleProperties n = true -> key_of p = Some (Identifier n kl) ->
     object_value (find (key_name_is "props") (properties_of c))
       = Some (ObjectExpression (qs1 ++ p :: qs2) pl) ->
     props_part f c
     = flat_map (props_field_warnings f (node_loc c)) qs1
       ++ [warning_at f p (node_loc c) (style_message n) (style_suggestion n)]
       ++ flat_map (props_field_warnings f (node_loc c)) qs2)
  /\
  (forall f c pl qs1 qs2 n kl p,
     has getStyleProperties n = true -> key_of p = Some (Identifier n kl) ->
     object_value (find (key_name_is "style") (properties_of c))
       = Some (ObjectExpression (qs1 ++ p :: qs2) pl) ->
     style_part f c = flat_map (style_field_warnings f (node_loc c)) (qs1 ++ qs2))
  /\
  (forall f c pl qs1 qs2 sk kl p,
     key_of p = Some (StringLiteral sk kl) ->
     (object_value (find (key_name_is "props") (properties_of c))
        = Some (ObjectExpression (qs1 ++ p :: qs2) pl) ->
      props_part f c = flat_map (props_field_warnings f (node_loc c)) (qs1 ++ qs2))
     /\
     (object_value (find (key_name_is "style") (properties_of c))
        = Some (ObjectExpression (qs1 ++ p :: qs2) pl) ->
      style_part f c = flat_map (style_field_warnings f (node_loc c)) (qs1 ++ qs2))).
Proof.
  split; [|split]; [intros f c pl qs1 qs2 n kl p Hn Hk Hv ..|];
    try destruct (style_name_facts n Hn) as (He & Ha & Hd & Hr).
  - unfold props_part; rewrite Hv; simpl properties_of; rewrite flat_map_insert.
    unfold props_field_warnings at 2; rewrite Hk, Hn, He; reflexivity.
  - unfold style_part; rewrite Hv; simpl properties_of.
    rewrite flat_map_insert, flat_map_app.
    unfold style_field_warnings at 2; rewrite Hk, Ha, Hd, Hr; reflexivity.
  - intros f c pl qs1 qs2 sk kl p Hk; split; intros Hv.
    + unfold props_part; rewrite Hv; simpl properties_of.
      rewrite flat_map_insert, flat_map_app.
      unfold props_field_warnings at 2; rewrite Hk; reflexivity.
    + unfold style_part; rewrite Hv; simpl properties_of.
      rewrite flat_map_insert, flat_map_app.
      unfold style_field_warnings at 2; rewrite Hk; reflexivity.
Qed.

Definition width_string_key_component : node :=
  ObjectExpression
    [ prop_at "props" (ObjectExpression
        [ ObjectProperty (StringLiteral "width" (at_ 3 4)) false (str "100px") (at_ 3 4) ]
        (at_ 2 9)) 2 2 ]
    (at_ 1 10).

(** C1 fails on [{ props: { 'width': '100px' } }]: the field named width,
    written with a string key, yields no style warning at all. *)
Lemma style_name_string_key_counterexample :
  isDOMQLComponent width_string_key_component = true
  /\ ~ (length (filter (fun d => String.eqb (message d) (style_message "width"))
                  (warnings (checkObjectExpression new_linter width_string_key_component "a.js")))
        = 1).
Proof. vm_compute. split; [reflexivity | discriminate]. Qed.

Definition width_field : node := prop_at "width" (str "100px") 2 4.

Definition width_in_both : node :=
  ObjectExpression
    [ prop_at "props" (ObjectExpression [width_field] (at_ 1 9)) 1 2;
      prop_at "style" (ObjectExpression [width_field] (at_ 3 9)) 3 2 ]
    (at_ 1 0).

Lemma style_name_placement_witness :
  has getStyleProperties "width" = true
  /\ key_of width_field = Some (Identifier "width" (at_ 2 4))
  /\ props_part "a.js" width_in_both
     = [warning_at "a.js" width_field (at_ 1 0) (style_message "width") (style_suggestion "width")]
  /\ style_part "a.js" width_in_both = []
  /\ props_part "a.js" width_string_key_component = [].
Proof.
  split; [vm_compute; reflexivity|].
  split; [reflexivity|].
  split; [|split].
  - apply (proj1 style_name_placement "a.js" width_in_both (at_ 1 9) [] []
             "width" (at_ 2 4) width_field); vm_compute; reflexivity.
  - apply (proj1 (proj2 style_name_placement) "a.js" width_in_both (at_ 3 9) [] []
             "width" (at_ 2 4) width_field); vm_compute; reflexivity.
  - apply (proj1 (proj2 (proj2 style_name_placement) "a.js" width_string_key_component
             (at_ 2 9) [] [] "width" (at_ 3 4)
             (ObjectProperty (StringLiteral "width" (at_ 3 4)) false (str "100px") (at_ 3 4))
             eq_refl)); reflexivity.
Defined.

(** ** C2: HTML attributes in style and in props *)

(** The README's own example of a wrong placement:
    [const BadComponent = { style: { 'data-testid': 'test' } }]. *)
Definition data_testid_in_style : node :=
  ObjectExpression
    [ prop_at "style" (ObjectExpression
        [ ObjectProperty (StringLiteral "data-testid" (at_ 3 4)) false (str "test") (at_ 3 4) ]
        (at_ 2 9)) 2 2 ]
    (at_ 1 21).

(** C2 (code bug): the component above is detected, yet validating it pushes
    no warning: the identifier test in front of the [data-]/[aria-] check
    skips every string key, and a [data-] name can only be a string key. *)
Theorem data_attr_in_style_no_warning :
  isDOMQLComponent data_testid_in_style = true
  /\ warnings (checkObjectExpression new_linter data_testid_in_style "a.js") = [].
Proof. vm_compute; split; reflexivity. Qed.

(** ** C10: only identifier keys are examined *)

(** C10: a property whose key is not an [Identifier] node (a string or
    numeric literal, any other expression, or a spread element with no key)
    yields no diagnostic in any of the three sub-object checks. *)
Theorem non_identifier_keys_skipped f loc p :
  (forall nm kl, key_of p <> Some (Identifier nm kl)) ->
  props_field_warnings f loc p = []
  /\ style_field_warnings f loc p = []
  /\ on_field_warnings f loc p = [].
Proof.
  intros H; unfold props_field_warnings, style_field_warnings, on_field_warnings.
  destruct (key_of p) as [k|] eqn:Hk; [|repeat split].
  destruct k; try (repeat split; reflexivity).
  exfalso; exact (H _ _ eq_refl).
Qed.

Definition testid_field : node :=
  ObjectProperty (StringLiteral "data-testid" (at_ 3 4)) false (str "test") (at_ 3 4).

Lemma non_identifier_keys_skipped_witness :
  (forall nm kl, key_of testid_field <> Some (Identifier nm kl))
  /\ props_field_warnings "a.js" None testid_field = []
  /\ style_field_warnings "a.js" None testid_field = []
  /\ on_field_warnings "a.js" None testid_field = [].
Proof.
  assert (H : forall nm kl, key_of testid_field <> Some (Identifier nm kl))
    by (intros nm kl; simpl; discriminate).
  split; [exact H|].
  apply (non_identifier_keys_skipped "a.js" None testid_field H).
Defined.

(** ** C3: the on object *)

(** C3 (amended): for a property [p] of a component's on object whose key
    is the identifier [n] (written plainly or computed), the warnings of the
    on object are those of the other properties with, at [p]'s place,
    exactly one warning ("'n' doesn't look like an event handler and should
    probably be in 'props'", suggestion "Consider moving 'n' to the 'props'
    object") if [n] does not start with "on" and is none of mouseenter,
    mouseleave, click, keydown, keyup, and no warning otherwise. A property
    whose key is a string literal is not examined: inserting it into the on
    object adds no warning, whatever the string. *)
Theorem on_field_placement :
  (forall f c pl qs1 qs2 n kl p,
   key_of p = Some (Identifier n kl) ->
   object_value (find (key_name_is "on") (properties_of c))
     = Some (ObjectExpression (qs1 ++ p :: qs2) pl) ->
   exists W,
     on_part f c = flat_map (on_field_warnings f (node_loc c)) qs1 ++ W
                   ++ flat_map (on_field_warnings f (node_loc c)) qs2
     /\ (startsWith n "on" = false /\ ~ In n onExceptions ->
         W = [warning_at f p (node_loc c) (on_message n) (on_suggestion n)])
     /\ (~ (startsWith n "on" = false /\ ~ In n onExceptions) -> W = []))
  /\
  (forall f c pl qs1 qs2 sk kl p,
   key_of p = Some (StringLiteral sk kl) ->
   object_value (find (key_name_is "on") (properties_of c))
     = Some (ObjectExpression (qs1 ++ p :: qs2) pl) ->
   on_part f c = flat_map (on_field_warnings f (node_loc c)) (qs1 ++ qs2)).
Proof.
  split; cycle 1.
  { intros f c pl qs1 qs2 sk kl p Hk Hv.
    unfold on_part; rewrite Hv; simpl properties_of.
    rewrite flat_map_insert, flat_map_app.
    unfold on_field_warnings at 2; rewrite Hk; reflexivity. }
  intros f c pl qs1 qs2 n kl p Hk Hv.
  exists (on_field_warnings f (node_loc c) p).
  split; [unfold on_part; rewrite Hv; simpl properties_of; apply flat_map_insert|].
  unfold on_field_warnings; rewrite Hk.
  pose proof (has_In onExceptions n) as HI.
  destruct (startsWith n "on"), (has onExceptions n); simpl; split; intros H;
    try reflexivity; exfalso.
  - destruct H as [H _]; discriminate.
  - destruct H as [H _]; discriminate.
  - destruct H as [_ H]; apply H, HI; reflexivity.
  - apply H; split; [reflexivity | intros Hin; apply HI in Hin; discriminate].
Qed.

Definition id_field : node := prop_at "id" (str "z") 8 4.

Definition id_in_on : node :=
  ObjectExpression [ prop_at "on" (ObjectExpression [id_field] (at_ 7 6)) 7 2 ] (at_ 1 0).

Definition string_key_in_on : node :=
  ObjectExpression
    [ prop_at "on" (ObjectExpression
        [ ObjectProperty (StringLiteral "id" (at_ 8 4)) false (str "z") (at_ 8 4) ]
        (at_ 7 6)) 7 2 ]
    (at_ 1 0).

Lemma on_field_placement_witness :
  key_of id_field = Some (Identifier "id" (at_ 8 4))
  /\ on_part "a.js" id_in_on
     = [warning_at "a.js" id_field (at_ 1 0) (on_message "id") (on_suggestion "id")]
  /\ on_part "a.js" string_key_in_on = [].
Proof.
  split; [reflexivity|].
  split.
  - destruct (proj1 on_field_placement "a.js" id_in_on (at_ 7 6) [] [] "id" (at_ 8 4) id_field
                eq_refl eq_refl) as [W [HW [Hyes _]]].
    rewrite HW, Hyes; [reflexivity|].
    split; [vm_compute; reflexivity | simpl; intuition discriminate].
  - apply (proj2 on_field_placement "a.js" string_key_in_on (at_ 7 6) [] [] "id" (at_ 8 4)
             (ObjectProperty (StringLiteral "id" (at_ 8 4)) false (str "z") (at_ 8 4))
             eq_refl eq_refl).
Defined.

(** C3 fails on [{ on: { 'id': 'z' } }]: the field named id does not start
    with "on" and is no exception, yet no warning is produced. *)
Lemma on_string_key_counterexample :
  startsWith "id" "on" = false /\ ~ In "id" onExceptions
  /\ warnings (checkObjectExpression new_linter string_key_in_on "a.js") = [].
Proof.
  split; [reflexivity|]. split; [simpl; intuition discriminate|].
  vm_compute; reflexivity.
Qed.

(** ** C4: the component detector *)

Definition component_keys : list string := ["extend"; "props"; "style"; "on"].

(** C4 (amended): an object literal is a component iff one of its direct
    properties (an object property or method, computed or not; not a spread
    element) has an [Identifier] key named extend, props, style or on.
    String-literal keys never count. *)
Theorem isDOMQLComponent_iff n :
  isDOMQLComponent n = true <->
  exists p nm kl, In p (properties_of n) /\ key_of p = Some (Identifier nm kl)
                  /\ In nm component_keys.
Proof.
  unfold isDOMQLComponent; rewrite !orb_true_iff, !existsb_exists; split.
  - intros H.
    assert (G : exists k p, In k component_keys /\ In p (properties_of n)
                            /\ key_name_is k p = true)
      by (destruct H as [[[[p [Hp Hk]]|[p [Hp Hk]]]|[p [Hp Hk]]]|[p [Hp Hk]]];
          [exists "extend" | exists "props" | exists "style" | exists "on"];
          exists p; simpl; tauto).
    destruct G as [k [p [Hin [Hp Hk]]]].
    unfold key_name_is in Hk.
    destruct (key_of p) as [[]|] eqn:Hkp; try discriminate.
    apply String.eqb_eq in Hk; subst.
    exists p, k, loc; auto.
  - intros [p [nm [kl [Hp [Hk Hin]]]]].
    assert (Hn : key_name_is nm p = true)
      by (unfold key_name_is; rewrite Hk; apply String.eqb_refl).
    simpl in Hin; destruct Hin as [<-|[<-|[<-|[<-|[]]]]];
      [left; left; left | left; left; right | left; right | right]; exists p; auto.
Qed.

Definition string_key_props : node :=
  ObjectExpression [ ObjectProperty (StringLiteral "props" None) false (ObjectExpression [] None) None ] None.

Definition computed_props_key : node :=
  ObjectExpression [ ObjectProperty (Identifier "props" None) true (NumericLiteral 1 None) None ] None.

(** C4 fails both ways: [{ 'props': {} }] has the static key props but is
    not a component; [{ [props]: 1 }] has only a computed key but is one. *)
Lemma isDOMQLComponent_counterexample :
  isDOMQLComponent string_key_props = false /\ isDOMQLComponent computed_props_key = true.
Proof. split; reflexivity. Qed.

(** ** C5: parse failures are isolated *)

(** C5: if a file's text fails to parse with message [msg], the run over
    [f :: fs] pushes exactly one diagnostic for [f] (the error at line 1,
    column 1 with message "Parse error: msg", no warning) and then continues
    with [fs] exactly as a run over [fs] alone would. *)
Theorem parse_failure_isolated readFileSync parse s f fs content msg :
  readFileSync f = inr content -> parse content = inl msg ->
  fold_left (lintFile readFileSync parse) (f :: fs) s
  = append_state (push_error s (parse_error f msg))
                 (fold_left (lintFile readFileSync parse) fs new_linter).
Proof.
  intros Hr Hp; simpl.
  assert (H : lintFile readFileSync parse s f = push_error s (parse_error f msg))
    by (unfold lintFile; rewrite Hr, Hp; reflexivity).
  rewrite H; apply lint_files_append.
Qed.

(** A reader returning the path as the text, and a parser that fails on
    "bad.js" and otherwise returns a file holding [width_in_both]. *)
Definition demo_read (f : string) : string + string := inr f.
Definition demo_parse (content : string) : string + node :=
  if String.eqb content "bad.js" then inl "Unexpected token (1:5)"
  else inr (OtherNode "File" [OtherNode "Program" [width_in_both] None] None).

Lemma parse_failure_isolated_witness :
  demo_read "bad.js" = inr "bad.js" /\ demo_parse "bad.js" = inl "Unexpected token (1:5)"
  /\ fold_left (lintFile demo_read demo_parse) ["bad.js"; "good.js"] new_linter
     = append_state (push_error new_linter (parse_error "bad.js" "Unexpected token (1:5)"))
                    (fold_left (lintFile demo_read demo_parse) ["good.js"] new_linter).
Proof.
  split; [reflexivity|]. split; [vm_compute; reflexivity|].
  apply (parse_failure_isolated demo_read demo_parse new_linter "bad.js" ["good.js"]
           "bad.js" "Unexpected token (1:5)"); vm_compute; reflexivity.
Defined.

(** ** C6: the success flag *)

Definition severities_ok (s : linter) : Prop :=
  (forall d, In d (errors s) -> dseverity d = SevError)
  /\ (forall d, In d (warnings s) -> dseverity d = SevWarning).

Lemma field_warnings_severity f loc p d :
  (In d (props_field_warnings f loc p) \/ In d (style_field_warnings f loc p)
   \/ In d (on_field_warnings f loc p)) -> dseverity d = SevWarning.
Proof.
  unfold props_field_warnings, style_field_warnings, on_field_warnings.
  destruct (key_of p) as [[]|]; simpl; try tauto.
  repeat match goal with |- context [if ?b then _ else _] => destruct b end;
    simpl; intros H; repeat (destruct H as [H|H]); subst; try reflexivity; tauto.
Qed.

Lemma ast_warnings_severity f ast d :
  In d (ast_warnings f ast) -> dseverity d = SevWarning.
Proof.
  unfold ast_warnings, component_warnings, props_part, style_part, on_part.
  intros H; apply in_flat_map in H; destruct H as [n [_ H]].
  destruct (isDOMQLComponent n); [|destruct H].
  repeat rewrite in_app_iff in H.
  repeat match type of H with context [match ?o with _ => _ end] => destruct o end;
    repeat (destruct H as [H|H]); try destruct H;
    apply in_flat_map in H; destruct H as [p [_ H]];
    eapply field_warnings_severity; eauto.
Qed.

Lemma lintFile_severities readFileSync parse s f :
  severities_ok s -> severities_ok (lintFile readFileSync parse s f).
Proof.
  intros [He Hw].
  unfold lintFile.
  destruct (readFileSync f) as [msg|content]; [|destruct (parse content) as [msg|ast] eqn:Hp].
  1,2: split; simpl; [intros d Hd; apply in_app_iff in Hd; destruct Hd as [Hd|[<-|[]]];
                        [apply He; exact Hd | reflexivity] | exact Hw].
  rewrite (fold_left_add_warnings (fun s n => checkObjectExpression s n f)
             (component_warnings f)) by (intros; apply checkObjectExpression_spec).
  split; simpl; [exact He|].
  intros d Hd; apply in_app_iff in Hd; destruct Hd as [Hd|Hd]; [apply Hw; exact Hd|].
  apply (ast_warnings_severity f ast d Hd).
Qed.

Lemma lint_files_severities readFileSync parse fs : forall s,
  severities_ok s -> severities_ok (fold_left (lintFile readFileSync parse) fs s).
Proof.
  induction fs as [|f fs IH]; intros s Hs; simpl; [exact Hs|].
  apply IH, lintFile_severities, Hs.
Qed.

(** C6: for a run of a new linter, [lint] returns true iff no diagnostic of
    severity error was produced, whatever the number of warnings. *)
Theorem lint_success_iff readFileSync parse fs :
  snd (lint readFileSync parse new_linter fs) = true <->
  (forall d, In d (reported (fst (lint readFileSync parse new_linter fs)))
             -> dseverity d <> SevError).
Proof.
  pose proof (lint_files_severities readFileSync parse fs new_linter
                (conj (fun d (H : In d []) => match H with end)
                      (fun d (H : In d []) => match H with end))) as [He Hw].
  unfold lint, reported; cbv zeta; cbn [fst snd].
  remember (fold_left (lintFile readFileSync parse) fs new_linter) as r eqn:Er.
  clear Er; destruct r as [errs warns]; simpl in *.
  destruct errs as [|e es]; simpl; split; intros H.
  - intros d Hd Hsev; rewrite (Hw d Hd) in Hsev; discriminate.
  - reflexivity.
  - discriminate.
  - exfalso; apply (H e); [left; reflexivity | apply He; left; reflexivity].
Qed.

(** ** C7: location of a diagnostic *)

(** The text
<<
const c = {
props: {
width: '1px'
}}
>>
    parses to this component: the literal starts at line 1, column 10; the
    width property at line 3, column 0. *)
Definition column0_component : node :=
  ObjectExpression
    [ prop_at "props" (ObjectExpression [prop_at "width" (str "1px") 3 0] (at_ 2 7)) 2 0 ]
    (at_ 1 10).

(** C7 (code bug): the width property has its own position, line 3,
    column 0, but the warning is reported at line 3, column 10: column 0 is
    falsy for [||], so the component's column is taken. *)
Theorem column_zero_falls_back :
  node_loc (prop_at "width" (str "1px") 3 0) = Some (mkPosition 3 0)
  /\ map (fun d => (dline d, dcolumn d))
       (warnings (checkObjectExpression new_linter column0_component "a.js"))
     = [(3, 10)].
Proof. split; [reflexivity | vm_compute; reflexivity]. Qed.

(** ** C8: order of the diagnostics *)

Definition file_errors (readFileSync : string -> string + string)
    (parse : string -> string + node) (f : string) : list diagnostic :=
  match readFileSync f with
  | inl msg => [parse_error f msg]
  | inr content => match parse content with
                   | inl msg => [parse_error f msg]
                   | inr _ => []
                   end
  end.

Definition file_warnings (readFileSync : string -> string + string)
    (parse : string -> string + node) (f : string) : list diagnostic :=
  match readFileSync f with
  | inl _ => []
  | inr content => match parse content with
                   | inl _ => []
                   | inr ast => ast_warnings f ast
                   end
  end.

Lemma lintFile_new readFileSync parse f :
  lintFile readFileSync parse new_linter f
  = mkLinter (file_errors readFileSync parse f) (file_warnings readFileSync parse f).
Proof.
  destruct (readFileSync f) as [msg|content] eqn:Hr.
  - unfold lintFile, file_errors, file_warnings; rewrite Hr; reflexivity.
  - destruct (parse content) as [msg|ast] eqn:Hp.
    + unfold lintFile, file_errors, file_warnings; rewrite Hr, Hp; reflexivity.
    + rewrite (lintFile_parsed _ _ _ _ _ _ Hr Hp).
      unfold file_errors, file_warnings; rewrite Hr, Hp; reflexivity.
Qed.

(** A run from a new linter: its errors and warnings are those of the files
    one after the other. *)
Lemma lint_run_diagnostics readFileSync parse fs :
  errors (fold_left (lintFile readFileSync parse) fs new_linter)
  = flat_map (file_errors readFileSync parse) fs
  /\ warnings (fold_left (lintFile readFileSync parse) fs new_linter)
     = flat_map (file_warnings readFileSync parse) fs.
Proof.
  induction fs as [|f fs [IHe IHw]]; [split; reflexivity|].
  rewrite lint_files_cons, lintFile_new; simpl; rewrite IHe, IHw; split; reflexivity.
Qed.

(** The first file has a component with a misplaced style name, the second
    does not parse. *)
Definition order_parse (content : string) : string + node :=
  if String.eqb content "b.js" then inl "Unexpected token (1:5)"
  else inr (OtherNode "File" [OtherNode "Program" [width_in_both] None] None).

(** C8 fails on the files [a.js] then [b.js]: in the diagnostics as the
    linter lists them (errors, then warnings) the diagnostic of [b.js] comes
    before that of [a.js]. *)
Lemma diagnostics_order_counterexample :
  map file (reported (fst (lint demo_read order_parse new_linter ["a.js"; "b.js"])))
  = ["b.js"; "a.js"].
Proof. vm_compute; reflexivity. Qed.

(** ** C9: repeated runs *)

(** C9: two runs over the same files push the same diagnostic sequence, in
    the same order, whatever the instances already held (in particular two
    runs of new linters give equal instances, and a second run of the same
    instance appends again exactly what the first one appended). *)
Theorem lint_repeatable readFileSync parse fs s1 s2 :
  skipn (length (errors s1)) (errors (fst (lint readFileSync parse s1 fs)))
  = skipn (length (errors s2)) (errors (fst (lint readFileSync parse s2 fs)))
  /\ skipn (length (warnings s1)) (warnings (fst (lint readFileSync parse s1 fs)))
     = skipn (length (warnings s2)) (warnings (fst (lint readFileSync parse s2 fs))).
Proof.
  unfold lint; cbv zeta; cbn [fst].
  rewrite (lint_files_append _ _ fs s1), (lint_files_append _ _ fs s2).
  destruct s1, s2; unfold append_state; simpl.
  rewrite !skipn_app, !Nat.sub_diag, !skipn_all; simpl; split; reflexivity.
Qed.

(** * Further coverage: options, command line, report, fixer *)

(** ** Options of the constructor and the command line *)

(** The JavaScript values an option can hold. *)
Inductive jsval := JUndefined | JNull | JString (s : string) | JArray (l : list string).

(** JavaScript truthiness: [undefined], [null] and [''] are falsy, arrays
    (even empty ones) are truthy. *)
Definition truthy (v : jsval) : bool :=
  match v with
  | JUndefined | JNull => false
  | JString s => negb (String.eqb s "")
  | JArray _ => true
  end.

(** The [options] argument: for each key, [None] when the key is absent. *)
Record options := mkOptions { opt_files : option jsval; opt_ignore : option jsval }.

Definition no_options : options := mkOptions None None.

(** [this.options] after the constructor. *)
Record resolved_options := mkResolved { ofiles : jsval; oignore : jsval }.

Definition default_files : list string := ["**/*.js"; "**/*.jsx"; "**/*.ts"; "**/*.tsx"].
Definition default_ignore : list string := ["node_modules/**"; "dist/**"].

(** [options.files || d] with an absent key read as [undefined]. *)
Definition js_or_val (o : option jsval) (d : jsval) : jsval :=
  match o with
  | Some v => if truthy v then v else d
  | None => d
  end.

(** [{ files: options.files || D, ignore: options.ignore || I, ...options }]:
    the spread copies every key present in [options] over the defaults. *)
Definition construct_options (o : options) : resolved_options :=
  let files := js_or_val (opt_files o) (JArray default_files) in
  let ignore := js_or_val (opt_ignore o) (JArray default_ignore) in
  mkResolved (match opt_files o with Some v => v | None => files end)
             (match opt_ignore o with Some v => v | None => ignore end).

(** [s.split(',')] *)
Fixpoint split_comma (s : string) : list string :=
  match s with
  | EmptyString => [""]
  | String c s' =>
      let r := split_comma s' in
      if Ascii.eqb c ","%char then "" :: r
      else match r with
           | x :: xs => String c x :: xs
           | [] => [String c ""]
           end
  end.

(** The argument loop of the command line interface ([args] is
    [process.argv.slice(2)]); [args[i + 1]] must be truthy for a flag to
    take it, and then the loop skips it. *)
Fixpoint parse_args (args : list string) (o : options) : options :=
  match args with
  | [] => o
  | a :: rest =>
      match rest with
      | [] => o
      | v :: rest' =>
          if String.eqb a "--files" && truthy (JString v)
          then parse_args rest' (mkOptions (Some (JArray (split_comma v))) (opt_ignore o))
          else if String.eqb a "--ignore" && truthy (JString v)
          then parse_args rest' (mkOptions (opt_files o) (Some (JArray (split_comma v))))
          else parse_args rest o
      end
  end.

(** [new DOMQLLinter(options)] with the options the command line built. *)
Definition cli_options (args : list string) : resolved_options :=
  construct_options (parse_args args no_options).

Definition no_comma (x : string) : bool :=
  forallb (fun c => negb (Ascii.eqb c ","%char)) (list_ascii_of_string x).

Example split_comma_examples :
  split_comma "src/**/*.js,lib/*.js" = ["src/**/*.js"; "lib/*.js"]
  /\ split_comma "" = [""] /\ split_comma "a," = ["a"; ""].
Proof. repeat split; reflexivity. Qed.

(** [s.split(',').join(',')] gives [s] back; the pieces hold no comma and
    there is at least one. *)
Theorem split_comma_roundtrip s :
  String.concat "," (split_comma s) = s
  /\ split_comma s <> [] /\ forallb no_comma (split_comma s) = true.
Proof.
  induction s as [|c s' [IHj [IHn IHc]]]; [repeat split; discriminate|].
  simpl. destruct (Ascii.eqb c ","%char) eqn:Hc.
  - apply Ascii.eqb_eq in Hc; subst c.
    destruct (split_comma s') as [|x xs]; [congruence|].
    repeat split; try discriminate; [|exact IHc].
    simpl in *; destruct xs; simpl in *; rewrite IHj; reflexivity.
  - destruct (split_comma s') as [|x xs]; [congruence|].
    simpl in IHc; apply andb_true_iff in IHc; destruct IHc as [Hx Hxs].
    repeat split; try discriminate.
    + destruct xs; simpl in *; rewrite IHj; reflexivity.
    + simpl; unfold no_comma in *; simpl; rewrite Hc, Hx, Hxs; reflexivity.
Qed.

Lemma parse_args_step a v rest o :
  parse_args (a :: v :: rest) o
  = if String.eqb a "--files" && truthy (JString v)
    then parse_args rest (mkOptions (Some (JArray (split_comma v))) (opt_ignore o))
    else if String.eqb a "--ignore" && truthy (JString v)
    then parse_args rest (mkOptions (opt_files o) (Some (JArray (split_comma v))))
    else parse_args (v :: rest) o.
Proof. reflexivity. Qed.

Lemma parse_args_no_files_flag args : forall o,
  ~ In "--files" args -> opt_files (parse_args args o) = opt_files o.
Proof.
  assert (G : forall n args o, length args <= n ->
            ~ In "--files" args -> opt_files (parse_args args o) = opt_files o).
  { induction n as [|n IH]; intros args0 o Hl Hn.
    - destruct args0; [reflexivity | simpl in Hl; lia].
    - destruct args0 as [|a [|v rest']]; [reflexivity|reflexivity|].
      rewrite parse_args_step.
      assert (Ha : String.eqb a "--files" = false)
        by (apply String.eqb_neq; intros ->; apply Hn; left; reflexivity).
      rewrite Ha, andb_false_l.
      destruct (String.eqb a "--ignore" && truthy (JString v)).
      + rewrite IH; [reflexivity | simpl in *; lia
                    | intros H; apply Hn; right; right; exact H].
      + apply IH; [simpl in *; lia | intros H; apply Hn; right; exact H]. }
  intros o; apply (G (length args)); lia.
Qed.

(** Without a [--files] argument the linter lints the default patterns. *)
Theorem cli_default_files args :
  ~ In "--files" args -> ofiles (cli_options args) = JArray default_files.
Proof.
  intros Hn; unfold cli_options, construct_options.
  rewrite (parse_args_no_files_flag args no_options Hn); reflexivity.
Qed.

Lemma cli_default_files_witness :
  ~ In "--files" ["--ignore"; "vendor/**,dist/**"]
  /\ ofiles (cli_options ["--ignore"; "vendor/**,dist/**"]) = JArray default_files.
Proof.
  assert (H : ~ In "--files" ["--ignore"; "vendor/**,dist/**"])
    by (simpl; intuition discriminate).
  split; [exact H | apply (cli_default_files _ H)].
Defined.

(** Whether the argument loop, run over [pre ++ x :: _] with [x] a non-empty
    string, steps exactly onto [x]: the loop does not take [x] as the value
    of a flag that ends [pre]. *)
Fixpoint loop_reaches_end (pre : list string) : bool :=
  match pre with
  | [] => true
  | [a] => negb (String.eqb a "--files" || String.eqb a "--ignore")
  | a :: ((v :: rest) as tl) =>
      if (String.eqb a "--files" || String.eqb a "--ignore") && truthy (JString v)
      then loop_reaches_end rest else loop_reaches_end tl
  end.

Lemma parse_args_prefix : forall n pre x xs o,
  length pre <= n -> loop_reaches_end pre = true -> x <> "" ->
  exists o', parse_args (pre ++ x :: xs) o = parse_args (x :: xs) o'.
Proof.
  assert (Hx : forall x, x <> "" -> truthy (JString x) = true)
    by (intros x Hx; simpl; apply negb_true_iff, String.eqb_neq, Hx).
  induction n as [|n IH]; intros pre x xs o Hl Hr Hne.
  - destruct pre; [exists o; reflexivity | simpl in Hl; lia].
  - destruct pre as [|a [|v rest]]; [exists o; reflexivity| |].
    + simpl app; rewrite parse_args_step, (Hx x Hne).
      simpl in Hr; apply negb_true_iff, orb_false_iff in Hr; destruct Hr as [H1 H2].
      rewrite H1, H2; exists o; reflexivity.
    + assert (E : loop_reaches_end (a :: v :: rest)
                  = if (String.eqb a "--files" || String.eqb a "--ignore") && truthy (JString v)
                    then loop_reaches_end rest else loop_reaches_end (v :: rest))
        by reflexivity.
      rewrite E in Hr; clear E.
      simpl app; rewrite parse_args_step.
      simpl in Hl.
      destruct (String.eqb a "--files"), (String.eqb a "--ignore"), (truthy (JString v));
        cbn [orb andb] in *;
        first [apply (IH rest) | apply (IH (v :: rest))]; simpl; auto; lia.
Qed.

(** A [--files v] pair reached by the loop, with a non-empty [v] and no
    later [--files] argument, makes the linter lint exactly the
    comma-separated patterns of [v]: the defaults and the patterns of any
    earlier [--files] are dropped, and [--ignore] arguments before or after
    it do not change that. *)
Theorem cli_files_flag pre v rest :
  loop_reaches_end pre = true -> v <> "" -> ~ In "--files" rest ->
  ofiles (cli_options (pre ++ "--files" :: v :: rest)) = JArray (split_comma v).
Proof.
  intros Hp Hv Hn; unfold cli_options.
  destruct (parse_args_prefix (length pre) pre "--files" (v :: rest) no_options
              (le_n _) Hp ltac:(discriminate)) as [o' ->].
  rewrite parse_args_step.
  assert (Ht : truthy (JString v) = true)
    by (simpl; apply negb_true_iff, String.eqb_neq, Hv).
  rewrite Ht; simpl andb; cbv iota.
  unfold construct_options; rewrite parse_args_no_files_flag by exact Hn; reflexivity.
Qed.

Lemma cli_files_flag_witness :
  ofiles (cli_options ["--ignore"; "dist/**"; "--files"; "a.js"; "--files";
                       "src/**/*.js,lib/**/*.js"; "--ignore"; "vendor/**"])
  = JArray ["src/**/*.js"; "lib/**/*.js"].
Proof.
  apply (cli_files_flag ["--ignore"; "dist/**"; "--files"; "a.js"]
           "src/**/*.js,lib/**/*.js" ["--ignore"; "vendor/**"]);
    [vm_compute; reflexivity | discriminate | simpl; intuition discriminate].
Defined.

(** A [--files] flag with an empty value is skipped together with the value
    (the value is falsy, so neither branch runs and the loop goes on). *)
Theorem cli_empty_flag_value_skipped rest o :
  parse_args ("--files" :: "" :: rest) o = parse_args rest o
  /\ parse_args ("--ignore" :: "" :: rest) o = parse_args rest o.
Proof. split; simpl; destruct rest; reflexivity. Qed.



(** The constructor itself keeps a present key even when it is falsy. *)
Example construct_options_keeps_falsy :
  ofiles (construct_options (mkOptions (Some JUndefined) None)) = JUndefined.
Proof. reflexivity. Qed.

(** ** More facts about the validator and the driver *)

Lemma field_warning_shape f loc p d :
  In d (props_field_warnings f loc p) \/ In d (style_field_warnings f loc p)
  \/ In d (on_field_warnings f loc p) ->
  exists msg sugg, d = warning_at f p loc msg sugg.
Proof.
  unfold props_field_warnings, style_field_warnings, on_field_warnings.
  destruct (key_of p) as [[]|]; simpl; try tauto.
  repeat match goal with |- context [if ?b then _ else _] => destruct b end;
    simpl; intros H; repeat (destruct H as [H|H]); subst; try tauto; eauto.
Qed.

Lemma ast_warning_shape f ast d :
  In d (ast_warnings f ast) -> exists p loc msg sugg, d = warning_at f p loc msg sugg.
Proof.
  unfold ast_warnings, component_warnings, props_part, style_part, on_part.
  intros H; apply in_flat_map in H; destruct H as [n [_ H]].
  destruct (isDOMQLComponent n); [|destruct H].
  repeat rewrite in_app_iff in H.
  repeat match type of H with context [match ?o with _ => _ end] => destruct o end;
    repeat (destruct H as [H|H]); try destruct H;
    apply in_flat_map in H; destruct H as [p [_ H]];
    destruct (field_warning_shape f (node_loc n) p d ltac:(tauto)) as [m [s' ->]]; eauto.
Qed.

Lemma js_or_pos a b : 1 <= b -> 1 <= js_or a b.
Proof. destruct a as [[|k]|]; simpl; lia. Qed.

Lemma lintFile_new_shape readFileSync parse f d :
  In d (reported (lintFile readFileSync parse new_linter f)) ->
  file d = f /\ 1 <= dline d /\ 1 <= dcolumn d.
Proof.
  rewrite lintFile_new; unfold reported; simpl; intros H.
  apply in_app_iff in H; destruct H as [H|H].
  - unfold file_errors in H.
    destruct (readFileSync f) as [msg|c]; [|destruct (parse c) as [msg|ast]];
      simpl in H; repeat destruct H as [H|H]; subst; simpl; repeat split; try lia; try tauto.
  - unfold file_warnings in H.
    destruct (readFileSync f) as [msg|c]; [destruct H|destruct (parse c) as [msg|ast]];
      [destruct H|].
    destruct (ast_warning_shape f ast d H) as (p & loc & m & s' & ->).
    unfold warning_at, diag_line, diag_column; simpl.
    split; [reflexivity | split; apply js_or_pos, js_or_pos; lia].
Qed.

(** Every diagnostic of a run names one of the linted files, and is placed
    at a line and a column of at least 1: the fallbacks end in 1, and a
    0 from Babel is never kept (so no column 0 is ever reported). *)
Theorem run_diagnostics_located readFileSync parse fs d :
  In d (reported (fst (lint readFileSync parse new_linter fs))) ->
  In (file d) fs /\ 1 <= dline d /\ 1 <= dcolumn d.
Proof.
  unfold lint; cbv zeta; cbn [fst].
  induction fs as [|f fs IH]; [simpl; tauto|].
  rewrite lint_files_cons; unfold reported, append_state; simpl.
  intros H; repeat rewrite in_app_iff in H.
  assert (Hf : In d (reported (lintFile readFileSync parse new_linter f)) ->
               In (file d) (f :: fs) /\ 1 <= dline d /\ 1 <= dcolumn d)
    by (intros H'; destruct (lintFile_new_shape _ _ _ _ H') as (-> & ?); simpl; tauto).
  assert (Hr : In d (reported (fold_left (lintFile readFileSync parse) fs new_linter)) ->
               In (file d) (f :: fs) /\ 1 <= dline d /\ 1 <= dcolumn d)
    by (intros H'; destruct (IH H') as (? & ?); simpl; tauto).
  unfold reported in Hf, Hr; rewrite in_app_iff in Hf, Hr; tauto.
Qed.

Lemma run_diagnostics_located_witness :
  In (parse_error "bad.js" "Unexpected token (1:5)")
     (reported (fst (lint demo_read demo_parse new_linter ["bad.js"])))
  /\ In "bad.js" ["bad.js"] /\ 1 <= 1 /\ 1 <= 1.
Proof.
  assert (H : In (parse_error "bad.js" "Unexpected token (1:5)")
                 (reported (fst (lint demo_read demo_parse new_linter ["bad.js"]))))
    by (vm_compute; left; reflexivity).
  split; [exact H | apply (run_diagnostics_located demo_read demo_parse ["bad.js"] _ H)].
Defined.

(** A property with a position whose line and column are both at least 1
    is reported at exactly that position. *)
Theorem own_position_used f p loc l c msg sugg :
  node_loc p = Some (mkPosition l c) -> 1 <= l -> 1 <= c ->
  dline (warning_at f p loc msg sugg) = l /\ dcolumn (warning_at f p loc msg sugg) = c.
Proof.
  intros Hp Hl Hc; unfold warning_at, diag_line, diag_column; simpl; rewrite Hp; simpl.
  destruct l; [lia|]; destruct c; [lia|]; split; reflexivity.
Qed.

Lemma own_position_used_witness :
  dline (warning_at "a.js" width_field (at_ 1 0) "m" "s") = 2
  /\ dcolumn (warning_at "a.js" width_field (at_ 1 0) "m" "s") = 4.
Proof. apply (own_position_used _ _ _ 2 4); [reflexivity | lia | lia]. Defined.

(** [lint] reports success iff every file was read and parsed. *)
Theorem lint_success_iff_all_parsed readFileSync parse fs :
  snd (lint readFileSync parse new_linter fs) = true <->
  (forall f, In f fs -> exists content ast,
      readFileSync f = inr content /\ parse content = inr ast).
Proof.
  unfold lint; cbv zeta; cbn [snd].
  destruct (lint_run_diagnostics readFileSync parse fs) as (He & _).
  rewrite He, Nat.eqb_eq, length_zero_iff_nil; clear He.
  induction fs as [|f fs IH]; simpl; [split; [tauto | reflexivity]|].
  unfold file_errors at 1.
  destruct (readFileSync f) as [msg|c] eqn:Hr.
  - split; [discriminate|]. intros H; destruct (H f (or_introl eq_refl)) as (? & ? & ? & _); congruence.
  - destruct (parse c) as [msg|ast] eqn:Hp.
    + split; [discriminate|].
      intros H; destruct (H f (or_introl eq_refl)) as (c' & ? & Hr' & Hp'); congruence.
    + simpl; rewrite IH; split.
      * intros H f' [<-|Hf']; [eauto | apply H, Hf'].
      * intros H f' Hf'; apply H; right; exact Hf'.
Qed.

(** Each property of a props, style or on object yields at most one
    warning: in props, no name is both a style name and an event handler. *)
Theorem at_most_one_warning_per_field f loc p :
  length (props_field_warnings f loc p) <= 1
  /\ length (style_field_warnings f loc p) <= 1
  /\ length (on_field_warnings f loc p) <= 1.
Proof.
  unfold props_field_warnings, style_field_warnings, on_field_warnings.
  destruct (key_of p) as [[]|]; try (simpl; lia).
  repeat split;
    repeat match goal with |- context [if ?b then _ else _] => destruct b eqn:? end;
    cbn [length app]; try lia.
  match goal with H : has getStyleProperties _ = true |- _ =>
    destruct (style_name_facts _ H) as [He _] end; congruence.
Qed.

Lemma find_first {A} (g : A -> bool) pre x post :
  (forall q, In q pre -> g q = false) -> g x = true -> find g (pre ++ x :: post) = Some x.
Proof.
  induction pre as [|q pre IH]; intros Hpre Hx; simpl; [rewrite Hx; reflexivity|].
  rewrite (Hpre q (or_introl eq_refl)); apply IH; [intros; apply Hpre; right|]; auto.
Qed.

(** With several [props] keys, only the first one is checked (JavaScript
    itself keeps the last): its value's fields give the warnings if it is an
    object literal, and nothing is checked otherwise, whatever comes after. *)
Theorem first_props_key_decides f c pre p1 post :
  properties_of c = pre ++ p1 :: post ->
  (forall q, In q pre -> key_name_is "props" q = false) ->
  key_name_is "props" p1 = true ->
  props_part f c = match value_of p1 with
                   | Some (ObjectExpression ps _) =>
                       flat_map (props_field_warnings f (node_loc c)) ps
                   | _ => []
                   end.
Proof.
  intros Hc Hpre Hp1; unfold props_part, object_value.
  rewrite Hc, (find_first _ _ _ _ Hpre Hp1).
  destruct (value_of p1) as [[]|]; reflexivity.
Qed.

(** [{ props: { id: 'x' }, props: { width: '1px' } }] *)
Definition duplicate_props : node :=
  ObjectExpression
    [ prop_at "props" (ObjectExpression [prop_at "id" (str "x") 1 20] (at_ 1 18)) 1 11;
      prop_at "props" (ObjectExpression [width_field] (at_ 1 40)) 1 33 ]
    (at_ 1 10).

Lemma first_props_key_decides_witness :
  props_part "a.js" duplicate_props = [].
Proof.
  rewrite (first_props_key_decides "a.js" duplicate_props []
             (prop_at "props" (ObjectExpression [prop_at "id" (str "x") 1 20] (at_ 1 18)) 1 11)
             [prop_at "props" (ObjectExpression [width_field] (at_ 1 40)) 1 33]);
    [vm_compute; reflexivity | reflexivity | intros q [] | reflexivity].
Defined.

Lemma object_value_none k ps :
  (forall q, In q ps -> key_name_is k q = true ->
     forall qs l, value_of q <> Some (ObjectExpression qs l)) ->
  object_value (find (key_name_is k) ps) = None.
Proof.
  intros H; unfold object_value.
  destruct (find (key_name_is k) ps) as [q|] eqn:Hf; [|reflexivity].
  destruct (find_some _ _ Hf) as [Hin Hk].
  destruct (value_of q) as [[]|] eqn:Hv; try reflexivity.
  exfalso; exact (H q Hin Hk _ _ Hv).
Qed.

(** A literal whose props, style and on keys (if any) do not hold object
    literals (e.g. [{ extend: 'div', props: p }]) yields no warning, even
    when it is a component. *)
Theorem no_subobjects_no_warnings f c :
  (forall k q, In k ["props"; "style"; "on"] -> In q (properties_of c) ->
     key_name_is k q = true -> forall qs l, value_of q <> Some (ObjectExpression qs l)) ->
  component_warnings f c = [].
Proof.
  intros H; unfold component_warnings, props_part, style_part, on_part.
  rewrite (object_value_none "props"), (object_value_none "style"), (object_value_none "on")
    by (intros q Hq Hk; refine (H _ q _ Hq Hk); simpl; tauto).
  destruct (isDOMQLComponent c); reflexivity.
Qed.

(** [{ extend: 'div', props: p }] *)
Definition props_by_reference : node :=
  ObjectExpression [ prop_at "extend" (str "div") 1 2; prop_at "props" (Identifier "p" None) 1 17 ]
    (at_ 1 0).

Lemma no_subobjects_no_warnings_witness :
  isDOMQLComponent props_by_reference = true
  /\ component_warnings "a.js" props_by_reference = [].
Proof.
  split; [reflexivity|].
  apply no_subobjects_no_warnings.
  intros k q Hk Hq Hkq qs l; simpl in Hq.
  destruct Hq as [<-|[<-|[]]]; simpl; discriminate.
Defined.

(** ** The walker reaches nested literals *)

Section NodeInd.
Variable P : node -> Prop.
Hypothesis HObj : forall ps l, (forall x, In x ps -> P x) -> P (ObjectExpression ps l).
Hypothesis HProp : forall k c v l, P k -> P v -> P (ObjectProperty k c v l).
Hypothesis HMeth : forall k c b l, P k -> (forall x, In x b -> P x) -> P (ObjectMethod k c b l).
Hypothesis HSpread : forall a l, P a -> P (SpreadElement a l).
Hypothesis HId : forall s l, P (Identifier s l).
Hypothesis HStr : forall s l, P (StringLiteral s l).
Hypothesis HNum : forall k l, P (NumericLiteral k l).
Hypothesis HOther : forall t cs l, (forall x, In x cs -> P x) -> P (OtherNode t cs l).

Fixpoint node_ind' (n : node) : P n :=
  let fix all (l : list node) : forall x, In x l -> P x :=
    match l with
    | [] => fun x H => match H with end
    | y :: ys => fun x H =>
        match H with
        | or_introl e => eq_ind y P (node_ind' y) x e
        | or_intror H' => all ys x H'
        end
    end in
  match n with
  | ObjectExpression ps l => HObj ps l (all ps)
  | ObjectProperty k c v l => HProp k c v l (node_ind' k) (node_ind' v)
  | ObjectMethod k c b l => HMeth k c b l (node_ind' k) (all b)
  | SpreadElement a l => HSpread a l (node_ind' a)
  | Identifier s l => HId s l
  | StringLiteral s l => HStr s l
  | NumericLiteral k l => HNum k l
  | OtherNode t cs l => HOther t cs l (all cs)
  end.
End NodeInd.

Lemma oe_list (ps : list node) :
  (fix all (l : list node) : list node :=
     match l with [] => [] | x :: xs => object_expressions x ++ all xs end) ps
  = flat_map object_expressions ps.
Proof. induction ps as [|x xs IH]; simpl; [reflexivity | rewrite IH; reflexivity]. Qed.

Lemma oe_obj ps l :
  object_expressions (ObjectExpression ps l)
  = ObjectExpression ps l :: flat_map object_expressions ps.
Proof. simpl; rewrite oe_list; reflexivity. Qed.

Lemma oe_flat_map_incl (ps : list node) :
  (forall x, In x ps -> forall m, In m (object_expressions x) ->
     incl (object_expressions m) (object_expressions x)) ->
  forall m, In m (flat_map object_expressions ps) ->
  incl (object_expressions m) (flat_map object_expressions ps).
Proof.
  intros IH m Hm; apply in_flat_map in Hm; destruct Hm as [x [Hx Hm]].
  intros y Hy; apply in_flat_map; exists x; split; [exact Hx | exact (IH x Hx m Hm y Hy)].
Qed.

(** The literals visited below a visited literal are visited too. *)
Lemma oe_incl (n : node) : forall m,
  In m (object_expressions n) -> incl (object_expressions m) (object_expressions n).
Proof.
  induction n using node_ind'; intros m Hm.
  - rewrite oe_obj in *; destruct Hm as [<-|Hm]; [apply incl_refl|].
    apply incl_tl, oe_flat_map_incl; auto.
  - simpl in *; apply in_app_iff in Hm; destruct Hm as [Hm|Hm];
      [apply incl_appl | apply incl_appr]; auto.
  - simpl in *; rewrite oe_list in *; apply in_app_iff in Hm; destruct Hm as [Hm|Hm];
      [apply incl_appl; auto | apply incl_appr, oe_flat_map_incl; auto].
  - simpl in *; auto.
  - destruct Hm.
  - destruct Hm.
  - destruct Hm.
  - simpl in *; rewrite oe_list in *; apply oe_flat_map_incl; auto.
Qed.

(** Descent is never suppressed: if an object literal is visited, every
    object literal held by one of its properties (e.g. the props object of
    a component, or a component nested in it) is visited too, with all the
    literals below it. *)
Theorem walker_visits_nested root c p v :
  In c (object_expressions root) -> In p (properties_of c) -> value_of p = Some v ->
  incl (object_expressions v) (object_expressions root).
Proof.
  intros Hc Hp Hv.
  apply (incl_tran (m := object_expressions c)); [|apply oe_incl, Hc].
  destruct c; try destruct Hp.
  rewrite oe_obj; apply incl_tl.
  intros y Hy; apply in_flat_map; exists p; split; [exact Hp|].
  destruct p; try discriminate; injection Hv as ->; simpl; apply in_app_iff; right; exact Hy.
Qed.

(** [const A = { extend: 'div', props: { inner: { on: { id: 'z' } } } }]:
    the inner literal is itself a component. *)
Definition nested_component : node := ObjectExpression [ prop_at "on" (ObjectExpression [id_field] (at_ 2 30)) 2 26 ] (at_ 2 24).
Definition outer_props : node := ObjectExpression [ prop_at "inner" nested_component 2 17 ] (at_ 2 9).
Definition outer_component : node :=
  ObjectExpression [ prop_at "extend" (str "div") 1 12; prop_at "props" outer_props 2 2 ] (at_ 1 10).
Definition outer_file : node := OtherNode "File" [OtherNode "Program" [outer_component] None] None.

Lemma walker_visits_nested_witness :
  In nested_component (object_expressions outer_file)
  /\ on_message "id" = message (hd (parse_error "" "") (ast_warnings "a.js" outer_file)).
Proof.
  split.
  - apply (walker_visits_nested outer_file outer_props (prop_at "inner" nested_component 2 17)
             nested_component); [vm_compute; tauto | left; reflexivity | reflexivity | ].
    unfold nested_component; rewrite oe_obj; left; reflexivity.
  - vm_compute; reflexivity.
Defined.

(** ** The report *)

Inductive color := Blue | Green | Red | Yellow | Gray | Plain.

(** One [console.log] call: the chalk colour and the text. *)
Definition console_line : Type := (color * string)%type.

Definition nl : string := String (ascii_of_nat 10) "".

Fixpoint digits (fuel n : nat) (acc : string) : string :=
  match fuel with
  | 0 => acc
  | S fuel' =>
      let acc' := String (ascii_of_nat (48 + n mod 10)) acc in
      if Nat.ltb n 10 then acc' else digits fuel' (n / 10) acc'
  end.

(** Template-literal interpolation of a number. *)
Definition string_of_nat (n : nat) : string := digits (S n) n "".

Example string_of_nat_examples :
  string_of_nat 0 = "0" /\ string_of_nat 7 = "7" /\ string_of_nat 120 = "120".
Proof. repeat split; reflexivity. Qed.

Definition error_lines (e : diagnostic) : list console_line :=
  [ (Red, ("‚ùå Error in " ++ file e ++ ":" ++ string_of_nat (dline e) ++ ":"
           ++ string_of_nat (dcolumn e))%string);
    (Red, ("   " ++ message e ++ nl)%string) ].

Definition warning_lines (w : diagnostic) : list console_line :=
  [ (Yellow, ("‚ö†Ô∏è  Warning in " ++ file w ++ ":" ++ string_of_nat (dline w) ++ ":"
              ++ string_of_nat (dcolumn w))%string);
    (Yellow, ("   " ++ message w)%string) ]
  ++ match suggestion w with
     | Some s => if truthy (JString s) then [(Gray, ("   üí° " ++ s ++ nl)%string)]
                 else [(Plain, "")]
     | None => [(Plain, "")]
     end.

(** [reportResults()]: the [console.log] calls it makes. *)
Definition reportResults (s : linter) : list console_line :=
  (Blue, ("üìä Linting Results:" ++ nl)%string) ::
  if Nat.eqb (length (errors s)) 0 && Nat.eqb (length (warnings s)) 0
  then [(Green, "‚úÖ No issues found!")]
  else flat_map error_lines (errors s) ++ flat_map warning_lines (warnings s)
       ++ [(Blue, (nl ++ "üìà Summary: " ++ string_of_nat (length (errors s)) ++ " errors, "
                   ++ string_of_nat (length (warnings s)) ++ " warnings")%string)].

(** C8 (amended): the linter keeps two arrays, errors and warnings; a run
    only appends to them (what was there before stays, unchanged, in front),
    and each array is in discovery order: file by file in list order; within
    a file the object literals in traversal order ([ast_warnings]); within a
    component its props, style and on parts ([component_warnings]); within
    a part the properties in declaration order. The report prints the lines
    of every error before the lines of every warning. *)
Theorem diagnostics_append_only_ordered readFileSync parse fs s :
  (exists d, fold_left (lintFile readFileSync parse) fs s = append_state s d)
  /\ errors (fold_left (lintFile readFileSync parse) fs new_linter)
     = flat_map (file_errors readFileSync parse) fs
  /\ warnings (fold_left (lintFile readFileSync parse) fs new_linter)
     = flat_map (file_warnings readFileSync parse) fs
  /\ (forall e w, In e (errors s) -> In w (warnings s) ->
       exists l1 l2 l3,
         reportResults s = l1 ++ error_lines e ++ l2 ++ warning_lines w ++ l3).
Proof.
  split; [eexists; apply lint_files_append|].
  split; [apply lint_run_diagnostics|].
  split; [apply lint_run_diagnostics|].
  intros e w He Hw.
  destruct (in_split _ _ He) as (ea & eb & Ee).
  destruct (in_split _ _ Hw) as (wa & wb & Ew).
  unfold reportResults; rewrite Ee, Ew, length_app; cbn [length].
  rewrite Nat.add_succ_r; cbn [Nat.eqb andb].
  rewrite !flat_map_app; cbn [flat_map].
  eexists (_ :: flat_map error_lines ea),
         (flat_map error_lines eb ++ flat_map warning_lines wa),
         (flat_map warning_lines wb ++ _).
  rewrite <- !app_assoc; reflexivity.
Qed.

Lemma diagnostics_append_only_ordered_witness :
  exists l1 l2 l3,
    reportResults (fst (lint demo_read order_parse new_linter ["a.js"; "b.js"]))
    = l1 ++ error_lines (parse_error "b.js" "Unexpected token (1:5)")
      ++ l2 ++ warning_lines (warning_at "a.js" width_field (at_ 1 0)
                                (style_message "width") (style_suggestion "width"))
      ++ l3.
Proof.
  apply (proj2 (proj2 (proj2 (diagnostics_append_only_ordered demo_read order_parse []
           (fst (lint demo_read order_parse new_linter ["a.js"; "b.js"])))))).
  - vm_compute; left; reflexivity.
  - vm_compute; left; reflexivity.
Defined.


Lemma field_warning_suggestion f loc p d :
  In d (props_field_warnings f loc p) \/ In d (style_field_warnings f loc p)
  \/ In d (on_field_warnings f loc p) ->
  exists s, suggestion d = Some s /\ truthy (JString s) = true.
Proof.
  unfold props_field_warnings, style_field_warnings, on_field_warnings.
  destruct (key_of p) as [[]|]; simpl; try tauto.
  repeat match goal with |- context [if ?b then _ else _] => destruct b end;
    simpl; intros H; repeat (destruct H as [H|H]); subst; try tauto;
    eexists; split; reflexivity.
Qed.

Lemma run_warning_suggestion readFileSync parse fs d :
  In d (warnings (fst (lint readFileSync parse new_linter fs))) ->
  exists s, suggestion d = Some s /\ truthy (JString s) = true.
Proof.
  unfold lint; cbv zeta; cbn [fst].
  destruct (lint_run_diagnostics readFileSync parse fs) as (_ & Hw).
  rewrite Hw; intros H; apply in_flat_map in H; destruct H as [f [_ H]].
  unfold file_warnings in H.
  destruct (readFileSync f) as [|c]; [destruct H|]; destruct (parse c) as [|ast]; [destruct H|].
  unfold ast_warnings, component_warnings, props_part, style_part, on_part in H.
  apply in_flat_map in H; destruct H as [n [_ H]].
  destruct (isDOMQLComponent n); [|destruct H].
  repeat rewrite in_app_iff in H.
  repeat match type of H with context [match ?o with _ => _ end] => destruct o end;
    repeat (destruct H as [H|H]); try destruct H;
    apply in_flat_map in H; destruct H as [p [_ H]];
    apply (field_warning_suggestion f (node_loc n) p d); tauto.
Qed.

Definition is_gray (l : console_line) : bool :=
  match fst l with Gray => true | _ => false end.

(** After a run, the report prints the suggestion of every warning: there
    is one grey suggestion line per warning, and the empty [console.log()]
    of a warning without suggestion never happens. *)
Theorem run_report_shows_suggestions readFileSync parse fs :
  let r := fst (lint readFileSync parse new_linter fs) in
  length (filter is_gray (reportResults r)) = length (warnings r)
  /\ ~ In (Plain, "") (reportResults r).
Proof.
  intros r.
  pose proof (run_warning_suggestion readFileSync parse fs) as Hs; fold r in Hs.
  assert (Herr : forall l, filter is_gray (flat_map error_lines l) = []
                           /\ ~ In (Plain, "") (flat_map error_lines l)).
  { induction l as [|e l [IH1 IH2]]; [split; simpl; tauto|].
    cbn [flat_map]; rewrite filter_app, IH1, in_app_iff; simpl; split; [reflexivity|].
    intros [[H|[H|[]]]|H]; [discriminate | discriminate | tauto]. }
  assert (Hwarn : forall l, (forall d, In d l -> exists s, suggestion d = Some s
                                              /\ truthy (JString s) = true) ->
             length (filter is_gray (flat_map warning_lines l)) = length l
             /\ ~ In (Plain, "") (flat_map warning_lines l)).
  { induction l as [|w l IH]; intros Hl; [split; simpl; tauto|].
    destruct (IH (fun d Hd => Hl d (or_intror Hd))) as [IH1 IH2].
    destruct (Hl w (or_introl eq_refl)) as [s' [Hsw Ht]].
    cbn [flat_map]; rewrite filter_app, length_app, IH1, in_app_iff.
    unfold warning_lines; rewrite Hsw, Ht; simpl; split; [reflexivity|].
    intros [[H|[H|[H|[]]]]|H]; try discriminate; tauto. }
  unfold reportResults; destruct (_ && _) eqn:E.
  - apply andb_true_iff in E; destruct E as [_ E]; apply Nat.eqb_eq in E.
    simpl; split; [symmetry; exact E|]. intros [H|[H|[]]]; discriminate.
  - destruct (Herr (errors r)) as [E1 E2]; destruct (Hwarn (warnings r) Hs) as [W1 W2].
    cbn [filter is_gray fst]; rewrite !filter_app, E1, app_nil_l, length_app, W1.
    split; [simpl; lia|].
    intros [H|H]; [discriminate|]. rewrite !in_app_iff in H.
    destruct H as [H|[H|[H|[]]]]; [tauto | tauto | discriminate].
Qed.

(** ** The auto-fixer's rewriting callback (src/fix-components.js) *)

(** [String.prototype.includes] *)
Fixpoint includes (s sub : string) : bool :=
  startsWith s sub || match s with
                      | EmptyString => false
                      | String _ s' => includes s' sub
                      end.

Definition fixStyleProperties : list string :=
  [ "minWidth"; "padding"; "gap"; "order"; "margin"; "background";
    "fontSize"; "fontWeight"; "justifyContent"; "maxWidth"; "position";
    "color"; "border" ].

Definition todo_comment : string :=
  (nl ++ "    // TODO: Move style properties from props to style object")%string.

(** The callback given to [content.replace(componentRegex, ...)]: the text
    it puts back for one match, and whether it counted a fix. *)
Definition fixComponentMatch (m : string) : string * bool :=
  let hasStyleInProps :=
    existsb (fun prop => includes m (prop ++ ":") && includes m "props:") fixStyleProperties in
  if hasStyleInProps then ((m ++ todo_comment)%string, true) else (m, false).

Lemma startsWith_app s t : startsWith (s ++ t) s = true.
Proof.
  induction s as [|c s IH]; [destruct t; reflexivity|].
  simpl; rewrite Ascii.eqb_refl, IH; reflexivity.
Qed.

Lemma string_app_assoc (a b c : string) : (a ++ b ++ c = (a ++ b) ++ c)%string.
Proof. induction a as [|ch a IH]; simpl; [reflexivity | rewrite IH; reflexivity]. Qed.

Lemma includes_app pre x post : includes (pre ++ x ++ post) x = true.
Proof.
  induction pre as [|c pre IH]; simpl.
  - destruct x; [destruct post; reflexivity|]. simpl; rewrite Ascii.eqb_refl, startsWith_app; reflexivity.
  - rewrite IH, orb_true_r; reflexivity.
Qed.

(** The fixer only ever appends its TODO comment: for every match it puts
    back the matched text unchanged (and counts nothing) or the matched text
    followed by the comment (and counts a fix), the latter exactly when the
    text contains "props:" and some listed name followed by ":". It does so
    as soon as such a name occurs anywhere - also as the tail of a longer
    name (reorder:, bgcolor:) or outside the props object. *)
Theorem fixer_matches_substrings :
  (forall m,
     (fixComponentMatch m = (m, false)
      /\ (includes m "props:" = false
          \/ forall name, In name fixStyleProperties -> includes m (name ++ ":") = false))
     \/ (fixComponentMatch m = ((m ++ todo_comment)%string, true)
         /\ includes m "props:" = true
         /\ exists name, In name fixStyleProperties /\ includes m (name ++ ":") = true))
  /\
  (forall m pre name post,
     In name fixStyleProperties -> includes m "props:" = true ->
     m = (pre ++ name ++ ":" ++ post)%string ->
     fixComponentMatch m = ((m ++ todo_comment)%string, true)).
Proof.
  split.
  - intros m; unfold fixComponentMatch.
    destruct (existsb _ fixStyleProperties) eqn:E; [right | left].
    + apply existsb_exists in E; destruct E as [name [Hn Hi]].
      apply andb_true_iff in Hi; destruct Hi as [H1 H2].
      split; [reflexivity | split; [exact H2 | exists name; split; assumption]].
    + split; [reflexivity|].
      rewrite <- not_true_iff_false, existsb_exists in E.
      destruct (includes m "props:") eqn:Hp; [right | left; reflexivity].
      intros name Hn; apply not_true_iff_false; intros Hi.
      apply E; exists name; rewrite Hi; split; [exact Hn | reflexivity].
  - intros m pre name post Hn Hp Hm; unfold fixComponentMatch.
    assert (H : existsb (fun prop => includes m (prop ++ ":") && includes m "props:")
                        fixStyleProperties = true).
    { apply existsb_exists; exists name; split; [exact Hn|].
      rewrite Hp, andb_true_r, Hm, (string_app_assoc name); apply includes_app. }
    rewrite H; reflexivity.
Qed.

Lemma fixer_matches_substrings_witness :
  fixComponentMatch "ListComponent = { extend: 'ul', props: { reorder: true }"
  = ("ListComponent = { extend: 'ul', props: { reorder: true }" ++ todo_comment, true)%string
  /\ fixComponentMatch "Card = { extend: 'div', props: { title: 'x' }"
     = ("Card = { extend: 'div', props: { title: 'x' }", false).
Proof.
  split.
  - apply (proj2 fixer_matches_substrings _ "ListComponent = { extend: 'ul', props: { re"
             "order" " true }"); [simpl; tauto | vm_compute; reflexivity | reflexivity].
  - destruct (proj1 fixer_matches_substrings "Card = { extend: 'div', props: { title: 'x' }")
      as [[H _] | [_ [_ [name [Hn Hi]]]]]; [exact H|].
    exfalso; simpl in Hn.
    repeat (destruct Hn as [<-|Hn]; [vm_compute in Hi; discriminate|]); destruct Hn.
Defined.

(** Every name the auto-fixer looks for is one the linter reports as a
    style property in props. *)
Theorem fixer_names_are_style_names n :
  In n fixStyleProperties -> has getStyleProperties n = true.
Proof.
  intros H; simpl in H.
  repeat (destruct H as [<-|H]; [vm_compute; reflexivity|]); destruct H.
Qed.

Lemma fixer_names_are_style_names_witness : has getStyleProperties "gap" = true.
Proof. apply fixer_names_are_style_names; simpl; tauto. Defined.
